(** * The guideline catalog of arm5nextjs: comparators, binary search,
      catalog actions and the query builder.

    Sources: [src/data/guidelines.mjs], [src/data/comparison.mjs] and
    [src/data/guidelineActions.mjs] (the in-memory actions and the
    database-backed [getGuidelines]). *)

From Stdlib Require Import ZArith String Ascii List Bool Lia.
From stdpp Require Import base option list strings pretty gmap.

Local Open Scope string_scope.
Local Open Scope list_scope.
Local Open Scope Z_scope.

(** ** JavaScript values of key fields *)

(** A JavaScript number as the catalog uses it: a level and an array index
    are integers; [NaN] is what arithmetic on [undefined] yields. *)
Inductive num : Type :=
| NaN
| Fin (z : Z).

(** The values a key field can hold. A field that an object does not have
    reads as [VUndefined]. *)
Inductive value : Type :=
| VUndefined
| VNull
| VNum (n : num)
| VStr (s : string).

(** A reference handed to a comparator: [undefined], [null] or an object
    with the guideline fields. *)
Record Guideline : Type := mkGuideline {
  name : value;
  technique : value;
  form : value;
  level : value;
  description : value
}.

Inductive ref : Type :=
| RUndefined
| RNull
| RObj (g : Guideline).

(** [new GuidelineModel(name, technique, form, level = null, description = undefined)] *)
Definition GuidelineModel (n t f : string) (l : value) (d : value) : Guideline :=
  {| name := VStr n; technique := VStr t; form := VStr f;
     level := l; description := d |}.

(** The comparison result type: [-1 | 0 | 1 | undefined]; [None] is
    [undefined]. *)
Definition ComparisonResult : Type := option Z.

Definition num_lt (a b : num) : bool :=
  match a, b with
  | Fin x, Fin y => x <? y
  | _, _ => false
  end.

Definition num_add (a b : num) : num :=
  match a, b with
  | Fin x, Fin y => Fin (x + y)
  | _, _ => NaN
  end.

Definition num_sub (a b : num) : num :=
  match a, b with
  | Fin x, Fin y => Fin (x - y)
  | _, _ => NaN
  end.

(** [Math.floor(n / 2)] *)
Definition floor_half (n : num) : num :=
  match n with
  | Fin x => Fin (x / 2)
  | NaN => NaN
  end.

(** [v === 0] on a comparison result. *)
Definition is_zero (r : ComparisonResult) : bool :=
  match r with
  | Some 0 => true
  | _ => false
  end.

(** [a === b] *)
Definition js_strict_eq (a b : value) : bool :=
  match a, b with
  | VUndefined, VUndefined => true
  | VNull, VNull => true
  | VNum (Fin x), VNum (Fin y) => x =? y
  | VStr s, VStr t => String.eqb s t
  | _, _ => false
  end.

(** [r == null] *)
Definition nullish (r : ref) : bool :=
  match r with
  | RObj _ => false
  | _ => true
  end.

(** ** Errors, results and promises *)

Inductive error_kind : Type :=
| RangeError
| TypeError
| ReferenceError
| NotFoundException.

Record error : Type := mkError {
  kind : error_kind;
  message : string
}.

(** What running a piece of code gives: a value, a thrown error, or no
    result yet after the allotted number of loop iterations. *)
Inductive outcome (A : Type) : Type :=
| Returned (a : A)
| Thrown (e : error)
| OutOfFuel.

Arguments Returned {A} a.
Arguments Thrown {A} e.
Arguments OutOfFuel {A}.

Definition bind {A B : Type} (m : outcome A) (k : A -> outcome B) : outcome B :=
  match m with
  | Returned a => k a
  | Thrown e => Thrown e
  | OutOfFuel => OutOfFuel
  end.

Notation "'do' x <- m ; k" := (bind m (fun x => k))
  (at level 10, x name, m at level 100, k at level 200).

Inductive promise (A : Type) : Type :=
| Resolved (a : A)
| Rejected (e : error).

Arguments Resolved {A} a.
Arguments Rejected {A} e.

(** ** Arrays *)

Definition array_length {A : Type} (collection : list A) : num :=
  Fin (Z.of_nat (length collection)).

(** [collection[i]]: the element, or [undefined] when [i] is no index of
    the array. *)
Definition collection_at (collection : list Guideline) (i : num) : ref :=
  match i with
  | NaN => RUndefined
  | Fin z =>
      if z <? 0 then RUndefined
      else match collection !! Z.to_nat z with
           | Some g => RObj g
           | None => RUndefined
           end
  end.

(** The start position [Array.prototype.splice] derives from its first
    argument. *)
Definition relative_start (len : Z) (start : num) : Z :=
  match start with
  | NaN => 0
  | Fin z => if z <? 0 then Z.max (len + z) 0 else Z.min z len
  end.

(** [collection.splice(start, deleteCount, ...items)]: the removed
    elements and the array afterwards. *)
Definition splice {A : Type} (collection : list A) (start : num)
    (deleteCount : Z) (items : list A) : list A * list A :=
  let len := Z.of_nat (length collection) in
  let k := relative_start len start in
  let d := Z.min (Z.max deleteCount 0) (len - k) in
  (take (Z.to_nat d) (drop (Z.to_nat k) collection),
   take (Z.to_nat k) collection ++ items ++ drop (Z.to_nat (k + d)) collection).

(** ** The query builder of the database-backed [getGuidelines] *)

(** An object as the list of its own properties in the order
    [Object.getOwnPropertyNames] lists them. *)
Definition JsObject : Type := list (string * value).

(** [object[fieldName]] *)
Fixpoint get_property (object : JsObject) (fieldName : string) : value :=
  match object with
  | [] => VUndefined
  | (k, v) :: rest =>
      if String.eqb k fieldName then v else get_property rest fieldName
  end.

Definition ToString (v : value) : string :=
  match v with
  | VUndefined => "undefined"
  | VNull => "null"
  | VNum NaN => "NaN"
  | VNum (Fin z) => pretty z
  | VStr s => s
  end.

(** Evaluating an identifier that neither the module nor the global
    object binds. *)
Definition unbound {A : Type} (identifier : string) : outcome A :=
  Thrown (mkError ReferenceError (identifier +:+ " is not defined")).

Record QueryBuilder : Type := mkQueryBuilder {
  whereClauses : list string;
  queryValues : list value;
  placeholderCount : Z;
  fieldPlaceholders : option (gmap string Z);
  orderClauses : option (list string)
}.

(** [Array.prototype.reduce] with a callback that may throw. *)
Fixpoint reduce {A B : Type} (callback : B -> A -> outcome B)
    (array : list A) (initial : B) : outcome B :=
  match array with
  | [] => Returned initial
  | x :: rest => do result <- callback initial x; reduce callback rest result
  end.

Definition lower_case (c : ascii) : bool :=
  (97 <=? Z.of_nat (nat_of_ascii c)) && (Z.of_nat (nat_of_ascii c) <=? 122).

Definition upper_case (c : ascii) : bool :=
  (65 <=? Z.of_nat (nat_of_ascii c)) && (Z.of_nat (nat_of_ascii c) <=? 90).

Definition digit (c : ascii) : bool :=
  (48 <=? Z.of_nat (nat_of_ascii c)) && (Z.of_nat (nat_of_ascii c) <=? 57).

(** [\w] *)
Definition word_char (c : ascii) : bool :=
  lower_case c || upper_case c || digit c || Ascii.eqb c "_".

(** [\w*[a-z0-9]] against a whole string *)
Fixpoint word_tail (s : string) : bool :=
  match s with
  | EmptyString => false
  | String c EmptyString => lower_case c || digit c
  | String c rest => word_char c && word_tail rest
  end.

(** [[a-z](?:\w*[a-z0-9])?] against a whole string *)
Definition name_segment (s : string) : bool :=
  match s with
  | EmptyString => false
  | String c EmptyString => lower_case c
  | String c rest => lower_case c && word_tail rest
  end.

(** The string before the first dot and the string after it. *)
Fixpoint split_at_dot (s : string) : option (string * string) :=
  match s with
  | EmptyString => None
  | String c rest =>
      if Ascii.eqb c "." then Some (EmptyString, rest)
      else match split_at_dot rest with
           | Some (before, after) => Some (String c before, after)
           | None => None
           end
  end.

(** [/^([a-z](?:\w*[a-z0-9])?)(?:\.([a-z](?:\w*[a-z0-9])?)?)$/.test(s)]:
    a segment, a dot, and then nothing or a second segment. *)
Definition field_pattern_test (s : string) : bool :=
  match split_at_dot s with
  | Some (before, after) =>
      name_segment before && (String.eqb after "" || name_segment after)
  | None => false
  end.

(** [validFieldName(fieldName)]: the body tests [field], not its
    parameter. *)
Definition validFieldName (fieldName : string) : outcome bool :=
  do field <- unbound "field";
  Returned (field_pattern_test (ToString field)).

Definition push {A : Type} (array : list A) (x : A) : list A := array ++ [x].

(** The callback of the reduce over the filter's property names. An
    undefined [sqlFilter] cannot be indexed. *)
Definition filter_callback (sqlFilter : option JsObject)
    (result : QueryBuilder) (fieldName : string) : outcome QueryBuilder :=
  do valid <- validFieldName fieldName;
  if (valid : bool) then
    do filterValue <-
      match sqlFilter with
      | Some object => Returned (get_property object fieldName)
      | None => Thrown (mkError TypeError "Cannot read properties of undefined")
      end;
    if js_strict_eq filterValue VNull then
      do field <- unbound "field";
      Returned
        (mkQueryBuilder
           (push (whereClauses result) (ToString field +:+ " IS NULL"))
           (queryValues result) (placeholderCount result)
           (fieldPlaceholders result) (orderClauses result))
    else
      (* [fieldName in result.fieldPlaceholders], on the own properties
         of the placeholder object *)
      match fieldPlaceholders result ≫= (fun placeholders => placeholders !! fieldName) with
      | Some placeholder =>
          Returned
            (mkQueryBuilder
               (push (whereClauses result)
                  (fieldName +:+ " = $" +:+ pretty placeholder))
               (queryValues result) (placeholderCount result)
               (fieldPlaceholders result) (orderClauses result))
      | None =>
          let count := placeholderCount result + 1 in
          (* [result[2]]: the builder has no property [2] *)
          Returned
            (mkQueryBuilder
               (push (whereClauses result)
                  (fieldName +:+ " = $" +:+ ToString VUndefined))
               (push (queryValues result) filterValue)
               count
               (Some (<[fieldName := count]>
                        (default ∅ (fieldPlaceholders result))))
               (orderClauses result))
      end
  else
    (* [console.log(`Ignoring filter field ${field}`)] *)
    do field <- (unbound "field" : outcome value);
    Returned result.

(** The callback of the reduce over the order's property names. *)
Definition order_callback (order : option JsObject)
    (result : QueryBuilder) (fieldName : string) : outcome QueryBuilder :=
  do valid <- validFieldName fieldName;
  if (valid : bool) then
    do orderValue <-
      match order with
      | Some object => Returned (get_property object fieldName)
      | None => Thrown (mkError TypeError "Cannot read properties of undefined")
      end;
    if js_strict_eq orderValue VNull then Returned result
    else
      Returned
        (mkQueryBuilder (whereClauses result) (queryValues result)
           (placeholderCount result) (fieldPlaceholders result)
           (Some (push (default [] (orderClauses result))
                    (fieldName +:+ " " +:+ ToString orderValue))))
  else
    do field <- (unbound "field" : outcome value);
    Returned result.

(** The statement text [getGuidelines] builds from the query builder. *)
Definition statement_text (queryBuilder : QueryBuilder) : string :=
  "SELECT form,technique,level,name,description " +:+
  "FROM guidelinesView " +:+
  "WHERE style='Hermetic' " +:+
  (match whereClauses queryBuilder with
   | [] => ""
   | clauses => "AND " +:+ String.concat " AND " clauses
   end) +:+
  "ORDER BY style, form, technique, level, name" +:+
  (match orderClauses queryBuilder with
   | None | Some [] => ""
   | Some clauses => ", " +:+ String.concat ", " clauses
   end).

(** The part of [getGuidelines(filter, sqlFilter)] that runs before the
    statement is handed to the connection pool: the query builder. *)
Definition getGuidelines_queryBuilder (sqlFilter : option JsObject)
    : outcome QueryBuilder :=
  do getOwnPropertyNames <- unbound "getOwnPropertyNames";
  do queryBuilder <-
    reduce (filter_callback sqlFilter)
      ((getOwnPropertyNames : JsObject -> list string) (default [] sqlFilter))
      (mkQueryBuilder [] [] 0 None None);
  do order <- unbound "order";
  reduce (order_callback order)
    (map fst (default [] (order : option JsObject)))
    queryBuilder.

(** The statement and the bound values [getGuidelines] passes to
    [pool.query]. *)
Definition getGuidelines_statement (sqlFilter : option JsObject)
    : outcome (string * list value) :=
  do queryBuilder <- getGuidelines_queryBuilder sqlFilter;
  Returned (statement_text queryBuilder, queryValues queryBuilder).

(** ** Comparator combinators of [comparison.mjs] *)

(** [array.findIndex(predicate)]: the index of the first element the
    predicate accepts, or -1. *)
Fixpoint findIndex_from {A : Type} (predicate : A -> bool) (array : list A)
    (i : Z) : Z :=
  match array with
  | [] => -1
  | x :: rest => if predicate x then i else findIndex_from predicate rest (i + 1)
  end.

Definition findIndex {A : Type} (predicate : A -> bool) (array : list A) : Z :=
  findIndex_from predicate array 0.

(** [conditionalCompare(compare, predicate, failValue)] *)
Definition conditionalCompare {T : Type}
    (compare : T -> T -> ComparisonResult) (predicate : T -> bool)
    (failValue : ComparisonResult) (compared comparee : T) : ComparisonResult :=
  if predicate compared && predicate comparee then compare compared comparee
  else failValue.

(** The accumulator [{done, value}] of [switchCompare]. *)
Record SwitchResult : Type := mkSwitchResult {
  switch_done : bool;
  switch_value : ComparisonResult
}.

(** The callback [switchCompare] reduces its entries with. *)
Definition switch_callback {T : Type} (ignoreEquality : bool)
    (compared comparee : T) (result : SwitchResult)
    (entry : (T -> bool) * (T -> T -> ComparisonResult)) : SwitchResult :=
  let '(predicate, compare) := entry in
  if ((ignoreEquality && is_zero (switch_value result))
      || negb (switch_done result))
     && predicate compared && predicate comparee
  then mkSwitchResult true (compare compared comparee)
  else result.

(** [switchCompare(predicateMapEntries, ignoreEquality = false)] *)
Definition switchCompare {T : Type}
    (predicateMapEntries : list ((T -> bool) * (T -> T -> ComparisonResult)))
    (ignoreEquality : bool) (compared comparee : T) : ComparisonResult :=
  switch_value
    (fold_left (switch_callback ignoreEquality compared comparee)
       predicateMapEntries (mkSwitchResult false (Some 0))).

(** ** The guideline group of [guidelines.mjs] *)

(** An instance of [GuidelineModel] or of [GuidelineGroupModel]; a group
    is its name and its members. *)
#[warnings="-register-all"] Inductive Member : Type :=
| MGuideline (g : Guideline)
| MGroup (group_name : value) (group_members : list Member).

(** [member.name] *)
Definition member_name (member : Member) : value :=
  match member with
  | MGuideline g => name g
  | MGroup group_name _ => group_name
  end.

(** A value passed to a method of the group: an instance of one of the
    two classes, a string, or anything else. *)
Inductive argument : Type :=
| AMember (member : Member)
| AString (s : string)
| AOther.

(** [validMember(member, index = -1)] on the members [members]. The
    argument of [indexOf] is the arrow function written there, and no
    element of the array is strictly equal to it. *)
Definition validMember (members : list Member) (member : argument)
    (index : Z) : bool :=
  match member with
  | AMember _ =>
      let memberIndex := findIndex (fun cursor : Member => false) members in
      (memberIndex <? 0) || (memberIndex =? index)
  | _ => false
  end.

(** [addMember(member)]: the members afterwards. *)
Definition addMember (members : list Member) (member : argument)
    : outcome (list Member) :=
  match member with
  | AMember m =>
      if validMember members member (-1)
      then Thrown (mkError RangeError "Member name already used")
      else Returned (members ++ [m])
  | _ => Thrown (mkError TypeError "Invalid member")
  end.

(** [new GuidelineGroupModel(name, members = [])]: the name and the
    members of the new group. *)
Definition GuidelineGroupModel (group_name : value) (members : list argument)
    : outcome (value * list Member) :=
  do added <- reduce addMember members [];
  Returned (group_name, added).

(** The name a member reference stands for, if it is a reference. *)
Definition reference_name (memberRef : argument) : option value :=
  match memberRef with
  | AMember m => Some (member_name m)
  | AString s => Some (VStr s)
  | AOther => None
  end.

(** [removeMember(memberRef)]: the removed member ([None] for
    [undefined]) and the members afterwards. *)
Definition removeMember (members : list Member) (memberRef : argument)
    : option Member * list Member :=
  match reference_name memberRef with
  | Some n =>
      let index :=
        findIndex (fun cursor => js_strict_eq (member_name cursor) n) members in
      if index <? 0 then (None, members)
      else let '(removed, members') := splice members (Fin index) 1 [] in
           (head removed, members')
  | None => (None, members)
  end.

(** [updateMember(memberRef, newMember)]: the replaced member and the
    members afterwards. *)
Definition updateMember (members : list Member) (memberRef newMember : argument)
    : outcome (option Member * list Member) :=
  match reference_name memberRef with
  | Some n =>
      let index :=
        findIndex (fun cursor => js_strict_eq (member_name cursor) n) members in
      if negb (validMember members newMember index) then
        Thrown (mkError RangeError
                  "The new value member name is reserved by another member")
      else if index <? 0 then
        Thrown (mkError NotFoundException "No member to update exists")
      else
        let '(removed, members') :=
          splice members (Fin index) 1
            (match newMember with
             | AMember m => [m]
             | _ => []  (* not reached: [validMember] refuses these *)
             end) in
        Returned (head removed, members')
  | None => Thrown (mkError NotFoundException "No member to update exists")
  end.

(** [getLastMember()] *)
Definition getLastMember (members : list Member) : option Member :=
  if 0 <? Z.of_nat (length members)
  then members !! Z.to_nat (Z.of_nat (length members) - 1)
  else None.

(** A call of one of the methods that change a group. *)
Inductive group_call : Type :=
| CallAdd (member : argument)
| CallRemove (memberRef : argument)
| CallUpdate (memberRef newMember : argument).

(** The members after a call; a call that throws leaves them as they
    were. *)
Definition members_after (members : list Member) (call : group_call)
    : list Member :=
  match call with
  | CallAdd member =>
      match addMember members member with
      | Returned members' => members'
      | _ => members
      end
  | CallRemove memberRef => snd (removeMember members memberRef)
  | CallUpdate memberRef newMember =>
      match updateMember members memberRef newMember with
      | Returned (_, members') => members'
      | _ => members
      end
  end.

(** ** The level column of the database-backed actions *)



(** ** The comparators and the in-memory catalog *)

Section Runtime.

(** The numeric value the runtime gives a string when [<] compares it
    with a value that is not a string. No function of the catalog calls
    it on its own; it is left to the runtime. *)
Variable StringToNumber : string -> num.

Definition ToNumber (v : value) : num :=
  match v with
  | VUndefined => NaN
  | VNull => Fin 0
  | VNum n => n
  | VStr s => StringToNumber s
  end.

(** [a < b]: two strings compare by code units, anything else as
    numbers, and a comparison with [NaN] is false. *)
Definition js_lt (a b : value) : bool :=
  match a, b with
  | VStr s, VStr t => String.ltb s t
  | _, _ => num_lt (ToNumber a) (ToNumber b)
  end.

(** ** Field comparators *)

(** [guidelines.mjs]: [artComparison] *)
Definition artComparison (compared comparee : value) : ComparisonResult :=
  if js_lt compared comparee then Some (-1)
  else if js_lt comparee compared then Some 1
  else if js_strict_eq compared comparee then Some 0
  else None.

(** [guidelineActions.mjs]: [compareLevel] *)
Definition compareLevel (compared comparee : value) : ComparisonResult :=
  if js_strict_eq compared comparee || js_lt compared comparee then Some 0
  else if js_strict_eq compared VNull then Some (-1)
  else if js_strict_eq comparee VNull || js_lt comparee compared then Some 1
  else None.

(** [guidelineActions.mjs]: [compareName] *)
Definition compareName (compared comparee : value) : ComparisonResult :=
  if js_strict_eq compared comparee then Some 0
  else if js_lt compared comparee then Some (-1)
  else if js_lt comparee compared then Some 1
  else None.

(** [comparison.mjs]: [compareIgnoreUndefined] *)
Definition compareIgnoreUndefined
    (compare : value -> value -> ComparisonResult)
    (compared comparee : value) : ComparisonResult :=
  if js_strict_eq compared VUndefined || js_strict_eq comparee VUndefined
  then Some 0
  else compare compared comparee.

(** [comparison.mjs]: [compareIgnoreNull] *)
Definition compareIgnoreNull
    (compare : value -> value -> ComparisonResult)
    (compared comparee : value) : ComparisonResult :=
  if js_strict_eq compared VNull || js_strict_eq comparee VNull
  then Some 0
  else compare compared comparee.

(** ** Key comparators *)

(** [guidelineActions.mjs]: [compareGuideline] *)
Definition compareGuideline (compared comparee : ref) : ComparisonResult :=
  match compared, comparee with
  | RObj a, RObj b =>
      let result := artComparison (form a) (form b) in
      let result :=
        if is_zero result then artComparison (technique a) (technique b)
        else result in
      let result :=
        if is_zero result then compareLevel (level a) (level b)
        else result in
      let result :=
        if is_zero result then compareName (name a) (name b)
        else result in
      result
  | _, _ => None
  end.

(** [guidelineActions.mjs]: [compareGuidelineKeys] *)
Definition compareGuidelineKeys (compared comparee : ref) : ComparisonResult :=
  match compared, comparee with
  | RObj a, RObj b =>
      let result := compareIgnoreUndefined artComparison (form a) (form b) in
      let result :=
        if is_zero result
        then compareIgnoreUndefined artComparison (technique a) (technique b)
        else result in
      let result :=
        if is_zero result
        then compareIgnoreUndefined compareLevel (level a) (level b)
        else result in
      let result :=
        if is_zero result
        then compareIgnoreUndefined compareName (name a) (name b)
        else result in
      result
  | _, _ => None
  end.

(** ** Binary search *)

Section BinarySearch.

Variable collection : list Guideline.
Variable seeked : ref.
Variable comparator : ref -> ref -> ComparisonResult.

(** The [while (s < e && cmp === 0)] loop; [i] is fixed before the loop
    and the body assigns [s], [e] and [cmp] only. *)
Fixpoint search_loop (fuel : nat) (i s e : num) (cmp : Z)
    : outcome (num * num * Z) :=
  if num_lt s e && (cmp =? 0) then
    match fuel with
    | O => OutOfFuel
    | S fuel' =>
        match comparator seeked (collection_at collection i) with
        | None =>
            Thrown (mkError TypeError "Incompatible seeked value")
        | Some c =>
            if c <? 0 then search_loop fuel' i s i c
            else if 0 <? c then search_loop fuel' i (num_add i (Fin 1)) e c
            else search_loop fuel' i s e c
        end
    end
  else Returned (s, e, cmp).

(** [binarySearch(collection, seeked, start, end, comparator)]; [None]
    for [end_] is an omitted or [undefined] argument. *)
Definition binarySearch (fuel : nat) (start : num) (end_ : option num)
    : outcome num :=
  let s := start in
  if num_lt s (Fin 0) || num_lt (array_length collection) s then
    Thrown (mkError RangeError "Invalid start index of the search window.")
  else
    let e := match end_ with
             | Some e => e
             | None => array_length collection
             end in
    (* [collection.lenght] is no property of an array: [e > undefined] *)
    if num_lt e (Fin 0) || num_lt (ToNumber VUndefined) e then
      Thrown (mkError RangeError "Invalid end index of the search window.")
    else
      let i := floor_half
                 (num_add start (match end_ with
                                 | Some e => e
                                 | None => ToNumber VUndefined
                                 end)) in
      do r <- search_loop fuel i s e 0;
      let '(s, _, cmp) := r in
      Returned (if cmp =? 0 then i else num_sub (Fin (-1)) s).

End BinarySearch.

(** The index the search probes when its window is the whole array. *)
Definition middle (collection : list Guideline) : num :=
  floor_half (num_add (Fin 0) (array_length collection)).

(** ** The catalog and its actions *)

(** The two entries the module starts with. *)
Definition creo_animal : Guideline :=
  GuidelineModel "Create an animal" "Creo" "Animal" (VNum (Fin 20))
    (VStr "Create a mundane animal").

Definition perdo_vim : Guideline :=
  GuidelineModel "Destroy a specific kind of magical effect." "Perdo" "Vim"
    VNull
    (VStr "Destroy a specific kind (such a Hermetic spell of specific Form) of level (level + 2 magnitudes)/2").

(** The module variable [guidelines] as the module initialises it. *)
Definition guidelines : list Guideline := [creo_animal; perdo_vim].

(** An entry the module does not start with. *)
Definition creo_corpus : Guideline :=
  GuidelineModel "Heal a Light Wound." "Creo" "Corpus" (VNum (Fin 15))
    VUndefined.

(** A key that supplies the form only. *)
Definition animal_key : Guideline :=
  {| name := VUndefined; technique := VUndefined; form := VStr "Animal";
     level := VUndefined; description := VUndefined |}.

(** Two guidelines of the same arts with the levels 2 and 5. *)
Definition preserve_corpse : Guideline :=
  GuidelineModel "Preserve a corpse from decay." "Creo" "Animal"
    (VNum (Fin 2)) VUndefined.

Definition cure_minor_disease : Guideline :=
  GuidelineModel "Cure a Minor animal disease." "Creo" "Animal"
    (VNum (Fin 5)) VUndefined.

(** The key object [{name, level, technique, form}] of a guideline. *)
Definition key_of (guideline : Guideline) : Guideline :=
  {| name := name guideline; technique := technique guideline;
     form := form guideline; level := level guideline;
     description := VUndefined |}.

(** [index >= 0] *)
Definition num_nonneg (index : num) : bool :=
  match index with
  | Fin z => 0 <=? z
  | NaN => false
  end.

(** [addGuideline(guideline)] run on the catalog [catalog]: the catalog
    afterwards and the promise the call returns. *)
Definition addGuideline (fuel : nat) (catalog : list Guideline)
    (guideline : Guideline) : outcome (list Guideline * promise Guideline) :=
  match binarySearch catalog (RObj guideline) compareGuidelineKeys fuel
          (Fin 0) (Some (array_length catalog)) with
  | Returned index =>
      if num_nonneg index then
        Returned (catalog,
                  Rejected (mkError RangeError "The guideline already exists"))
      else
        Returned
          (snd (splice catalog (num_sub (Fin (-1)) index) 0 [guideline]),
           Resolved (key_of guideline))
  | Thrown e => Returned (catalog, Rejected e)
  | OutOfFuel => OutOfFuel
  end.

(** [updateGuideline(guidelineKey, guideline)]: the catalog afterwards and
    the promise; the promise resolves to [splice(...)[0]]. *)
Definition updateGuideline (fuel : nat) (catalog : list Guideline)
    (guidelineKey : ref) (guideline : Guideline)
    : outcome (list Guideline * promise ref) :=
  match binarySearch catalog (RObj guideline) compareGuidelineKeys fuel
          (Fin 0) None with
  | Returned index =>
      if num_nonneg index then
        let '(removed, catalog') := splice catalog index 1 [guideline] in
        Returned (catalog',
                  Resolved (match removed with
                            | g :: _ => RObj g
                            | [] => RUndefined
                            end))
      else
        Returned (catalog,
                  Rejected (mkError NotFoundException
                              "The guideline does not exist"))
  | Thrown e => Returned (catalog, Rejected e)
  | OutOfFuel => OutOfFuel
  end.

(** The argument of [removeGuideline]: a string, or a reference (a key
    object, [null] or [undefined]). *)
Inductive key_argument : Type :=
| KString (s : string)
| KRef (r : ref).

(** The end of [removeGuideline], once [index] is known. *)
Definition remove_at (catalog : list Guideline) (index : num)
    : list Guideline * promise ref :=
  if num_nonneg index then
    let '(removed, catalog') := splice catalog index 1 [] in
    (catalog', Resolved (match removed with
                         | g :: _ => RObj g
                         | [] => RUndefined
                         end))
  else (catalog, Resolved RUndefined).

(** [removeGuideline(guidelineKey)]: the catalog afterwards and the
    promise. [typeof] is ["string"] for a string and ["object"] for an
    object and for [null]; [undefined] takes the default branch. An error
    thrown in the body rejects the promise of the async function. *)
Definition removeGuideline (fuel : nat) (catalog : list Guideline)
    (guidelineKey : key_argument) : outcome (list Guideline * promise ref) :=
  match guidelineKey with
  | KString s =>
      Returned
        (remove_at catalog
           (Fin (findIndex (fun cursor => js_strict_eq (name cursor) (VStr s))
                   catalog)))
  | KRef RUndefined => Returned (catalog, Resolved RUndefined)
  | KRef r =>
      match binarySearch catalog r compareGuidelineKeys fuel
              (Fin 0) (Some (array_length catalog)) with
      | Returned index => Returned (remove_at catalog index)
      | Thrown e => Returned (catalog, Rejected e)
      | OutOfFuel => OutOfFuel
      end
  end.


(** None of the four key fields is [undefined]. *)
Definition key_complete (g : Guideline) : bool :=
  negb (js_strict_eq (form g) VUndefined)
  && negb (js_strict_eq (technique g) VUndefined)
  && negb (js_strict_eq (level g) VUndefined)
  && negb (js_strict_eq (name g) VUndefined).

(** The arts and the name are strings and the level is [null] or an
    integer. *)
Definition well_formed (g : Guideline) : bool :=
  match form g, technique g, name g, level g with
  | VStr _, VStr _, VStr _, (VNull | VNum (Fin _)) => true
  | _, _, _, _ => false
  end.

(** The catalog is in ascending order of [compare]: no entry compares
    greater than its successor, and every such comparison is defined. *)
Fixpoint ascending (compare : ref -> ref -> ComparisonResult)
    (catalog : list Guideline) : bool :=
  match catalog with
  | a :: (b :: _) as rest =>
      match compare (RObj a) (RObj b) with
      | Some c => (c <=? 0) && ascending compare rest
      | None => false
      end
  | _ => true
  end.

(** ** What the search loop does *)

(** The loop is left at once when the window is empty or [cmp] is not
    zero. *)
Lemma search_loop_exit collection seeked comparator fuel i s e cmp :
  num_lt s e && (cmp =? 0) = false ->
  search_loop collection seeked comparator fuel i s e cmp
  = Returned (s, e, cmp).
Proof.
  intros Hexit. destruct fuel; cbn [search_loop]; rewrite Hexit; reflexivity.
Qed.

(** A probe that compares equal changes none of [s], [e] and [i], and
    [cmp] stays zero: the loop runs through any number of iterations. *)
Lemma search_loop_equal collection seeked comparator i s e :
  num_lt s e = true ->
  comparator seeked (collection_at collection i) = Some 0 ->
  forall fuel,
    search_loop collection seeked comparator fuel i s e 0 = OutOfFuel.
Proof.
  intros Hwindow Hprobe fuel.
  induction fuel as [|fuel IH]; cbn [search_loop]; rewrite Hwindow; cbn.
  - reflexivity.
  - rewrite Hprobe. cbn. exact IH.
Qed.

(** A probe that compares less moves [e] to [i] and ends the loop. *)
Lemma search_loop_less collection seeked comparator i s e c :
  num_lt s e = true ->
  comparator seeked (collection_at collection i) = Some c ->
  c < 0 ->
  forall fuel,
    search_loop collection seeked comparator (S fuel) i s e 0
    = Returned (s, i, c).
Proof.
  intros Hwindow Hprobe Hc fuel.
  cbn [search_loop]. rewrite Hwindow, Hprobe. cbn [andb Z.eqb].
  assert ((c <? 0) = true) as -> by lia.
  apply search_loop_exit.
  assert ((c =? 0) = false) as -> by lia.
  apply andb_false_r.
Qed.

(** A probe that compares greater moves [s] past [i] and ends the loop. *)
Lemma search_loop_greater collection seeked comparator i s e c :
  num_lt s e = true ->
  comparator seeked (collection_at collection i) = Some c ->
  0 < c ->
  forall fuel,
    search_loop collection seeked comparator (S fuel) i s e 0
    = Returned (num_add i (Fin 1), e, c).
Proof.
  intros Hwindow Hprobe Hc fuel.
  cbn [search_loop]. rewrite Hwindow, Hprobe. cbn [andb Z.eqb].
  assert ((c <? 0) = false) as -> by lia.
  assert ((0 <? c) = true) as -> by lia.
  apply search_loop_exit.
  assert ((c =? 0) = false) as -> by lia.
  apply andb_false_r.
Qed.

(** A probe that is not comparable throws. *)
Lemma search_loop_incomparable collection seeked comparator i s e :
  num_lt s e = true ->
  comparator seeked (collection_at collection i) = None ->
  forall fuel,
    search_loop collection seeked comparator (S fuel) i s e 0
    = Thrown (mkError TypeError "Incompatible seeked value").
Proof.
  intros Hwindow Hprobe fuel.
  cbn [search_loop]. rewrite Hwindow, Hprobe. reflexivity.
Qed.

(** ** One probe instead of a search *)

Lemma whole_window_nonempty (g : Guideline) (rest : list Guideline) :
  num_lt (Fin 0) (array_length (g :: rest)) = true.
Proof.
  unfold array_length, num_lt. apply Z.ltb_lt.
  rewrite length_cons. lia.
Qed.

Lemma binarySearch_whole_unfold collection seeked comparator fuel :
  binarySearch collection seeked comparator fuel (Fin 0)
    (Some (array_length collection))
  = do r <- search_loop collection seeked comparator fuel
              (middle collection) (Fin 0) (array_length collection) 0;
    let '(s, _, cmp) := r in
    Returned (if cmp =? 0 then middle collection
              else num_sub (Fin (-1)) s).
Proof.
  unfold binarySearch, middle, array_length, num_lt, ToNumber.
  assert ((Z.of_nat (length collection) <? 0) = false) as ->
    by (apply Z.ltb_ge, Nat2Z.is_nonneg).
  reflexivity.
Qed.

(** With the end of the window left out the probe index is
    [Math.floor((0 + undefined) / 2)], which is [NaN]. *)
Lemma binarySearch_open_end_unfold collection seeked comparator fuel :
  binarySearch collection seeked comparator fuel (Fin 0) None
  = do r <- search_loop collection seeked comparator fuel
              NaN (Fin 0) (array_length collection) 0;
    let '(s, _, cmp) := r in
    Returned (if cmp =? 0 then NaN else num_sub (Fin (-1)) s).
Proof.
  unfold binarySearch, array_length, num_lt, ToNumber.
  assert ((Z.of_nat (length collection) <? 0) = false) as ->
    by (apply Z.ltb_ge, Nat2Z.is_nonneg).
  reflexivity.
Qed.

(** Over the whole of a non-empty array, a seeked value equal to the
    middle element is never reported: the call does not return. *)
Lemma binarySearch_whole_equal g rest seeked comparator :
  comparator seeked (collection_at (g :: rest) (middle (g :: rest))) = Some 0 ->
  forall fuel,
    binarySearch (g :: rest) seeked comparator fuel (Fin 0)
      (Some (array_length (g :: rest))) = OutOfFuel.
Proof.
  intros Hprobe fuel. rewrite binarySearch_whole_unfold.
  rewrite search_loop_equal; auto using whole_window_nonempty.
Qed.

(** A seeked value less than the middle element is reported as absent
    with insertion index 0, whatever lies before the middle. *)
Lemma binarySearch_whole_less g rest seeked comparator c :
  comparator seeked (collection_at (g :: rest) (middle (g :: rest))) = Some c ->
  c < 0 ->
  forall fuel,
    binarySearch (g :: rest) seeked comparator (S fuel) (Fin 0)
      (Some (array_length (g :: rest))) = Returned (Fin (-1)).
Proof.
  intros Hprobe Hc fuel. rewrite binarySearch_whole_unfold.
  rewrite (search_loop_less _ _ _ _ _ _ c); auto using whole_window_nonempty.
  cbn [bind]. assert ((c =? 0) = false) as -> by lia. reflexivity.
Qed.

(** A seeked value greater than the middle element is reported as absent
    with the insertion index just after the middle, whatever lies
    behind. *)
Lemma binarySearch_whole_greater g rest seeked comparator c :
  comparator seeked (collection_at (g :: rest) (middle (g :: rest))) = Some c ->
  0 < c ->
  forall fuel,
    binarySearch (g :: rest) seeked comparator (S fuel) (Fin 0)
      (Some (array_length (g :: rest)))
    = Returned (num_sub (Fin (-1)) (num_add (middle (g :: rest)) (Fin 1))).
Proof.
  intros Hprobe Hc fuel. rewrite binarySearch_whole_unfold.
  rewrite (search_loop_greater _ _ _ _ _ _ c); auto using whole_window_nonempty.
  cbn [bind]. assert ((c =? 0) = false) as -> by lia. reflexivity.
Qed.

(** Over an empty array the loop is skipped with [cmp] still zero, and
    the probe index 0 is returned as if the value had been found. *)
Lemma binarySearch_empty seeked comparator fuel :
  binarySearch [] seeked comparator fuel (Fin 0) (Some (Fin 0))
  = Returned (Fin 0).
Proof.
  change (Fin 0) with (array_length (@nil Guideline)) at 2.
  rewrite binarySearch_whole_unfold.
  rewrite search_loop_exit by reflexivity. reflexivity.
Qed.

(** Over the whole of a non-empty array the search never returns a
    non-negative index. *)
Lemma binarySearch_whole_never_finds g rest seeked comparator fuel k :
  0 <= k ->
  binarySearch (g :: rest) seeked comparator fuel (Fin 0)
    (Some (array_length (g :: rest))) <> Returned (Fin k).
Proof.
  intros Hk.
  destruct (comparator seeked (collection_at (g :: rest) (middle (g :: rest))))
    as [c|] eqn:Hprobe.
  - destruct (Z.lt_trichotomy c 0) as [Hc|[->|Hc]].
    + destruct fuel as [|fuel].
      * rewrite binarySearch_whole_unfold. cbn [search_loop].
        rewrite whole_window_nonempty. discriminate.
      * rewrite (binarySearch_whole_less _ _ _ _ c) by assumption.
        intros [= <-]. clear -Hk. lia.
    + rewrite binarySearch_whole_equal by assumption. discriminate.
    + destruct fuel as [|fuel].
      * rewrite binarySearch_whole_unfold. cbn [search_loop].
        rewrite whole_window_nonempty. discriminate.
      * rewrite (binarySearch_whole_greater _ _ _ _ c) by assumption.
        unfold middle, array_length. cbn [num_add floor_half num_sub].
        assert (0 <= (0 + Z.of_nat (length (g :: rest))) / 2) as Hmiddle
          by (apply Z.div_pos; lia).
        revert Hmiddle.
        generalize ((0 + Z.of_nat (length (g :: rest))) / 2).
        intros m Hmiddle [= <-]. clear Hprobe. lia.
  - destruct fuel as [|fuel].
    + rewrite binarySearch_whole_unfold. cbn [search_loop].
      rewrite whole_window_nonempty. discriminate.
    + rewrite binarySearch_whole_unfold.
      rewrite search_loop_incomparable by auto using whole_window_nonempty.
      discriminate.
Qed.

(** ** The level comparator *)

(** C2 (the code departs from the claim). [compareLevel] answers 0 not
    only for identical operands but whenever [compared < comparee]: two
    concrete levels in ascending order compare equal, the sentinel [null]
    compares equal to every positive level (and a negative level equal to
    the sentinel), and operands that are neither the sentinel nor a number
    get an answer too. *)
Theorem compareLevel_less_answers_equal :
  (forall x y : Z,
      compareLevel (VNum (Fin x)) (VNum (Fin y))
      = if x <=? y then Some 0 else Some 1) /\
  (forall y : Z,
      compareLevel VNull (VNum (Fin y))
      = if 0 <? y then Some 0 else Some (-1)) /\
  (forall x : Z,
      compareLevel (VNum (Fin x)) VNull
      = if x <? 0 then Some 0 else Some 1) /\
  compareLevel VNull VNull = Some 0 /\
  compareLevel VUndefined VUndefined = Some 0 /\
  compareLevel (VStr "a") (VStr "b") = Some 0.
Proof.
  repeat split; try reflexivity.
  intros x y. unfold compareLevel, js_strict_eq, js_lt, ToNumber, num_lt.
  destruct (x =? y) eqn:Heq, (x <? y) eqn:Hlt, (y <? x) eqn:Hgt,
    (x <=? y) eqn:Hle; try reflexivity; lia.
Qed.

(** ** The key comparators on a missing operand *)

(** C10. When either operand is [null] or [undefined], both
    [compareGuideline] and [compareGuidelineKeys] answer [undefined]: never
    zero and never an order. *)
Theorem nullish_operand_incomparable (compared comparee : ref) :
  nullish compared || nullish comparee = true ->
  compareGuideline compared comparee = None /\
  compareGuidelineKeys compared comparee = None.
Proof.
  intros Hnullish.
  destruct compared as [| |a], comparee as [| |b];
    try discriminate Hnullish; split; reflexivity.
Qed.

(** ** The search over the catalog *)

(** C3 (the code departs from the claim). The catalog the module starts
    with is in ascending order and holds [creo_animal] at index 0 and
    [perdo_vim] at index 1. Searching the whole catalog for the first
    returns -1, the code for "absent, insert at 0"; searching for the
    second never returns; and with the end of the window left out, as
    [updateGuideline] calls it, the search throws. *)
Theorem binarySearch_present_key_not_found :
  ascending compareGuideline guidelines = true /\
  collection_at guidelines (Fin 0) = RObj creo_animal /\
  collection_at guidelines (Fin 1) = RObj perdo_vim /\
  (forall fuel,
      binarySearch guidelines (RObj creo_animal) compareGuidelineKeys
        (S fuel) (Fin 0) (Some (array_length guidelines))
      = Returned (Fin (-1))) /\
  (forall fuel,
      binarySearch guidelines (RObj perdo_vim) compareGuidelineKeys
        fuel (Fin 0) (Some (array_length guidelines))
      = OutOfFuel) /\
  (forall fuel,
      binarySearch guidelines (RObj perdo_vim) compareGuidelineKeys
        (S fuel) (Fin 0) None
      = Thrown (mkError TypeError "Incompatible seeked value")).
Proof.
  repeat split; try reflexivity.
  - intros fuel. apply (binarySearch_whole_less _ _ _ _ (-1)); [reflexivity|lia].
  - intros fuel. apply binarySearch_whole_equal. reflexivity.
Qed.

(** C4 (the code departs from the claim). Over an empty catalog the
    search returns 0 for every key, the answer for "found at index 0",
    not -1. Over the catalog the module starts with, the absent key
    [creo_corpus] gets -1, that is insertion index 0, although the order
    is kept by inserting at index 1 and broken by inserting at index 0. *)
Theorem binarySearch_absent_key_insertion_point :
  (forall seeked fuel,
      binarySearch [] seeked compareGuidelineKeys fuel (Fin 0) (Some (Fin 0))
      = Returned (Fin 0)) /\
  (forall fuel,
      binarySearch guidelines (RObj creo_corpus) compareGuidelineKeys
        (S fuel) (Fin 0) (Some (array_length guidelines))
      = Returned (Fin (-1))) /\
  ascending compareGuideline
    (snd (splice guidelines (Fin 0) 0 [creo_corpus])) = false /\
  ascending compareGuideline
    (snd (splice guidelines (Fin 1) 0 [creo_corpus])) = true /\
  ascending compareGuideline
    (snd (splice guidelines (Fin 2) 0 [creo_corpus])) = false.
Proof.
  repeat split; try reflexivity.
  - intros seeked fuel. apply binarySearch_empty.
  - intros fuel. apply (binarySearch_whole_less _ _ _ _ (-1)); [reflexivity|lia].
Qed.

(** ** Adding to the catalog *)

(** Nothing can be added to an empty catalog: the search answers 0 and
    the entry is taken to exist. *)
Lemma addGuideline_empty fuel guideline :
  addGuideline fuel [] guideline
  = Returned ([], Rejected (mkError RangeError "The guideline already exists")).
Proof.
  unfold addGuideline.
  change (array_length (@nil Guideline)) with (Fin 0).
  rewrite binarySearch_empty. reflexivity.
Qed.

(** A call that rejects leaves the catalog as it was. *)
Lemma addGuideline_rejected_unchanged fuel catalog guideline catalog' e :
  addGuideline fuel catalog guideline = Returned (catalog', Rejected e) ->
  catalog' = catalog.
Proof.
  unfold addGuideline.
  destruct (binarySearch _ _ _ _ _ _) as [index| |]; [|congruence|discriminate].
  destruct (num_nonneg index); congruence.
Qed.

(** C1 (the code departs from the claim). The catalog the module starts
    with is in ascending order. Adding [creo_corpus], whose key differs
    from both entries, succeeds and puts it in front of [creo_animal]; the
    catalog is then out of order. *)
Theorem addGuideline_breaks_ascending_order :
  ascending compareGuideline guidelines = true /\
  compareGuideline (RObj creo_animal) (RObj perdo_vim) = Some (-1) /\
  compareGuideline (RObj creo_corpus) (RObj creo_animal) = Some 1 /\
  compareGuideline (RObj creo_corpus) (RObj perdo_vim) = Some (-1) /\
  (forall fuel,
      addGuideline (S fuel) guidelines creo_corpus
      = Returned (creo_corpus :: guidelines, Resolved (key_of creo_corpus))) /\
  ascending compareGuideline (creo_corpus :: guidelines) = false.
Proof.
  repeat split; try reflexivity.
  intros fuel. unfold addGuideline, guidelines.
  rewrite (binarySearch_whole_less _ _ _ _ (-1)); [reflexivity|reflexivity|lia].
Qed.

(** C5 (the code departs from the claim). Both entries of the starting
    catalog compare equal to themselves. Adding [creo_animal] again
    succeeds and the catalog then holds it twice; adding [perdo_vim]
    again never settles. *)
Theorem addGuideline_duplicate_key :
  compareGuideline (RObj creo_animal) (RObj creo_animal) = Some 0 /\
  compareGuideline (RObj perdo_vim) (RObj perdo_vim) = Some 0 /\
  (forall fuel,
      addGuideline (S fuel) guidelines creo_animal
      = Returned (creo_animal :: guidelines, Resolved (key_of creo_animal))) /\
  (forall fuel, addGuideline fuel guidelines perdo_vim = OutOfFuel).
Proof.
  repeat split; try reflexivity.
  - intros fuel. unfold addGuideline, guidelines.
    rewrite (binarySearch_whole_less _ _ _ _ (-1)); [reflexivity|reflexivity|lia].
  - intros fuel. unfold addGuideline, guidelines.
    rewrite binarySearch_whole_equal; reflexivity.
Qed.

(** ** Updating the catalog *)

(** On an empty catalog an update is rejected as not found. *)
Lemma updateGuideline_empty fuel guidelineKey guideline :
  updateGuideline fuel [] guidelineKey guideline
  = Returned ([], Rejected (mkError NotFoundException
                              "The guideline does not exist")).
Proof.
  unfold updateGuideline. rewrite binarySearch_open_end_unfold.
  rewrite search_loop_exit by reflexivity. reflexivity.
Qed.

(** C6 (the code departs from the claim). On every catalog that holds an
    entry, [updateGuideline] rejects with the search's [TypeError] and
    leaves the catalog as it was, whatever the key and the new entry:
    it neither replaces an entry that is present nor reports an absent
    one as not found. *)
Theorem updateGuideline_nonempty_rejects :
  forall fuel g rest guidelineKey guideline,
    updateGuideline (S fuel) (g :: rest) guidelineKey guideline
    = Returned (g :: rest,
                Rejected (mkError TypeError "Incompatible seeked value")).
Proof.
  intros fuel g rest guidelineKey guideline.
  unfold updateGuideline. rewrite binarySearch_open_end_unfold.
  rewrite search_loop_incomparable by auto using whole_window_nonempty.
  reflexivity.
Qed.

(** ** The field comparators on strings and on any values *)

Lemma string_compare_refl (s : string) : String.compare s s = Eq.
Proof.
  pose proof (String.compare_antisym s s) as H.
  destruct (String.compare s s); [reflexivity | discriminate | discriminate].
Qed.

Lemma artComparison_compare (s t : string) :
  artComparison (VStr s) (VStr t)
  = Some (match String.compare s t with Lt => -1 | Eq => 0 | Gt => 1 end).
Proof.
  unfold artComparison, js_lt, js_strict_eq, String.ltb.
  rewrite (String.compare_antisym t s).
  destruct (String.compare s t) eqn:Hcmp; cbn; try reflexivity.
  apply String.compare_eq_iff in Hcmp. subst t.
  rewrite String.eqb_refl. reflexivity.
Qed.

(** X1. On two strings [artComparison] always has an answer, the
    answer is 0 exactly for equal strings, and exchanging the operands
    negates it. *)
Theorem artComparison_strings_total_order (s t : string) :
  artComparison (VStr s) (VStr t) <> None /\
  (artComparison (VStr s) (VStr t) = Some 0 <-> s = t) /\
  artComparison (VStr t) (VStr s)
  = option_map Z.opp (artComparison (VStr s) (VStr t)).
Proof.
  rewrite !artComparison_compare. split; [discriminate|]. split.
  - split.
    + destruct (String.compare s t) eqn:Hcmp; try discriminate.
      intros _. apply String.compare_eq_iff. exact Hcmp.
    + intros ->. rewrite string_compare_refl. reflexivity.
  - rewrite (String.compare_antisym t s).
    destruct (String.compare s t); reflexivity.
Qed.

(** Identical operands are not ordered by [<]. *)
Lemma js_strict_eq_not_lt (a b : value) :
  js_strict_eq a b = true -> js_lt a b = false /\ js_lt b a = false.
Proof.
  destruct a as [| |[|x]|s], b as [| |[|y]|t]; cbn; try discriminate;
    try (intros _; split; reflexivity).
  - intros Heq. apply Z.eqb_eq in Heq. subst y.
    rewrite Z.ltb_irrefl. split; reflexivity.
  - intros Heq. apply String.eqb_eq in Heq. subst t.
    unfold String.ltb. rewrite string_compare_refl. split; reflexivity.
Qed.

(** X2. [compareName] and [artComparison] test identity and order in a
    different sequence but are the same function on all values. *)
Theorem compareName_is_artComparison (compared comparee : value) :
  compareName compared comparee = artComparison compared comparee.
Proof.
  unfold compareName, artComparison.
  destruct (js_strict_eq compared comparee) eqn:Heq.
  - destruct (js_strict_eq_not_lt _ _ Heq) as [-> ->]. reflexivity.
  - destruct (js_lt compared comparee), (js_lt comparee compared); reflexivity.
Qed.

(** ** The key comparators on objects *)

Lemma compareIgnoreUndefined_defined compare (compared comparee : value) :
  js_strict_eq compared VUndefined = false ->
  js_strict_eq comparee VUndefined = false ->
  compareIgnoreUndefined compare compared comparee = compare compared comparee.
Proof. intros H1 H2. unfold compareIgnoreUndefined. rewrite H1, H2. reflexivity. Qed.

Lemma compareIgnoreUndefined_missing_r compare (compared : value) :
  compareIgnoreUndefined compare compared VUndefined = Some 0.
Proof.
  unfold compareIgnoreUndefined. rewrite orb_true_r. reflexivity.
Qed.

Lemma artComparison_same_string (s : string) :
  artComparison (VStr s) (VStr s) = Some 0.
Proof. rewrite artComparison_compare, string_compare_refl. reflexivity. Qed.

(** X3. On two objects that both have all four key fields, the
    comparator of partial keys answers what the comparator of guidelines
    answers. *)
Theorem compareGuidelineKeys_complete_keys (a b : Guideline) :
  key_complete a = true ->
  key_complete b = true ->
  compareGuidelineKeys (RObj a) (RObj b) = compareGuideline (RObj a) (RObj b).
Proof.
  unfold key_complete. intros Ha Hb.
  repeat (apply andb_prop in Ha; destruct Ha as [Ha ?]).
  repeat (apply andb_prop in Hb; destruct Hb as [Hb ?]).
  repeat match goal with
         | H : negb _ = true |- _ => apply negb_true_iff in H
         end.
  unfold compareGuidelineKeys, compareGuideline.
  rewrite !compareIgnoreUndefined_defined by assumption. reflexivity.
Qed.

(** X4. A key that supplies the form only is compared by the form
    only, whichever side it stands on: technique, level and name of the
    other object take no part. *)
Theorem compareGuidelineKeys_form_only (key g : Guideline) :
  technique key = VUndefined ->
  level key = VUndefined ->
  name key = VUndefined ->
  compareGuidelineKeys (RObj key) (RObj g)
  = compareIgnoreUndefined artComparison (form key) (form g) /\
  compareGuidelineKeys (RObj g) (RObj key)
  = compareIgnoreUndefined artComparison (form g) (form key).
Proof.
  intros Ht Hl Hn. unfold compareGuidelineKeys. rewrite Ht, Hl, Hn. split.
  - destruct (compareIgnoreUndefined artComparison (form key) (form g))
      as [[| |]|]; reflexivity.
  - rewrite !compareIgnoreUndefined_missing_r.
    destruct (compareIgnoreUndefined artComparison (form g) (form key))
      as [[| |]|]; reflexivity.
Qed.

(** X5. A guideline whose arts and name are strings and whose level is
    [null] or an integer compares equal to itself under both key
    comparators. *)
Theorem compareGuideline_reflexive (g : Guideline) :
  well_formed g = true ->
  compareGuideline (RObj g) (RObj g) = Some 0 /\
  compareGuidelineKeys (RObj g) (RObj g) = Some 0.
Proof.
  unfold well_formed, compareGuideline, compareGuidelineKeys.
  destruct (form g) as [| | |f]; try discriminate.
  destruct (technique g) as [| | |t]; try discriminate.
  destruct (name g) as [| | |n]; try discriminate.
  assert (compareName (VStr n) (VStr n) = Some 0) as Hname.
  { unfold compareName, js_strict_eq. rewrite String.eqb_refl. reflexivity. }
  destruct (level g) as [| |[|z]|]; try discriminate; intros _;
    rewrite ?compareIgnoreUndefined_defined by reflexivity;
    rewrite !artComparison_same_string; cbn [is_zero].
  - split; (change (compareLevel VNull VNull) with (Some 0); cbn [is_zero];
            exact Hname).
  - assert (compareLevel (VNum (Fin z)) (VNum (Fin z)) = Some 0) as ->.
    { unfold compareLevel, js_strict_eq. rewrite Z.eqb_refl. reflexivity. }
    cbn [is_zero]. split; exact Hname.
Qed.

(** X6. Two guidelines of the same arts whose levels are integers in
    ascending order (or equal) are ordered by their names alone: the
    levels decide nothing. *)
Theorem compareGuideline_ascending_levels (a b : Guideline)
    (f t : string) (x y : Z) :
  form a = VStr f -> form b = VStr f ->
  technique a = VStr t -> technique b = VStr t ->
  level a = VNum (Fin x) -> level b = VNum (Fin y) ->
  x <= y ->
  compareGuideline (RObj a) (RObj b) = compareName (name a) (name b).
Proof.
  intros Hfa Hfb Hta Htb Hla Hlb Hxy.
  unfold compareGuideline. rewrite Hfa, Hfb, Hta, Htb, Hla, Hlb.
  rewrite !artComparison_same_string. cbn [is_zero].
  assert (compareLevel (VNum (Fin x)) (VNum (Fin y)) = Some 0) as ->.
  { unfold compareLevel, js_strict_eq, js_lt, ToNumber, num_lt.
    destruct (x =? y) eqn:Heq; [reflexivity|].
    assert ((x <? y) = true) as -> by lia. reflexivity. }
  reflexivity.
Qed.

(** ** The search on any window *)

(** The loop throws nothing but the [TypeError] of a probe that is not
    comparable. *)
Lemma search_loop_thrown collection seeked comparator fuel i s e cmp err :
  search_loop collection seeked comparator fuel i s e cmp = Thrown err ->
  err = mkError TypeError "Incompatible seeked value".
Proof.
  revert s e cmp. induction fuel as [|fuel IH]; intros s e cmp;
    cbn [search_loop]; destruct (num_lt s e && (cmp =? 0)); try discriminate.
  destruct (comparator seeked (collection_at collection i)) as [c|].
  - destruct (c <? 0); [apply IH|]. destruct (0 <? c); apply IH.
  - intros [= <-]. reflexivity.
Qed.

(** The loop either never ends or is over after one iteration. *)
Lemma search_loop_one_probe collection seeked comparator i s e :
  (forall fuel,
      search_loop collection seeked comparator fuel i s e 0 = OutOfFuel) \/
  (exists r,
      r <> OutOfFuel /\
      forall fuel,
        search_loop collection seeked comparator (S fuel) i s e 0 = r).
Proof.
  destruct (num_lt s e) eqn:Hwindow.
  - destruct (comparator seeked (collection_at collection i)) as [c|] eqn:Hprobe.
    + destruct (Z.lt_trichotomy c 0) as [Hc|[->|Hc]].
      * right. exists (Returned (s, i, c)). split; [discriminate|].
        intros fuel. apply search_loop_less; assumption.
      * left. apply search_loop_equal; assumption.
      * right. exists (Returned (num_add i (Fin 1), e, c)).
        split; [discriminate|].
        intros fuel. apply search_loop_greater; assumption.
    + right. exists (Thrown (mkError TypeError "Incompatible seeked value")).
      split; [discriminate|].
      intros fuel. apply search_loop_incomparable; assumption.
  - right. exists (Returned (s, e, 0)). split; [discriminate|].
    intros fuel. apply search_loop_exit. rewrite Hwindow. reflexivity.
Qed.

(** X14. [binarySearch] compares the seeked value with one element at
    most: on every input the call either never returns, or it returns or
    throws after the first iteration of its loop, however long the
    window is. *)
Theorem binarySearch_one_probe collection seeked comparator start end_ :
  (forall fuel,
      binarySearch collection seeked comparator fuel start end_ = OutOfFuel) \/
  (exists r,
      r <> OutOfFuel /\
      forall fuel,
        binarySearch collection seeked comparator (S fuel) start end_ = r).
Proof.
  unfold binarySearch.
  destruct (num_lt start (Fin 0) || num_lt (array_length collection) start).
  { right. eexists. split; [|intros fuel; reflexivity]. discriminate. }
  match goal with
  | |- context [if ?c then Thrown ?err else _] =>
      destruct c; [right; exists (Thrown err); split;
                   [discriminate | intros fuel; reflexivity] |]
  end.
  match goal with
  | |- context [search_loop _ _ _ _ ?i ?s ?e 0] =>
      destruct (search_loop_one_probe collection seeked comparator i s e)
        as [Hloops|[r [Hr Hends]]]
  end.
  - left. intros fuel. rewrite Hloops. reflexivity.
  - right.
    destruct r as [[[s' e'] cmp]|err|]; [| |congruence].
    + eexists. split; [|intros fuel; rewrite Hends; reflexivity]. discriminate.
    + eexists. split; [|intros fuel; rewrite Hends; reflexivity]. discriminate.
Qed.

(** X15. The search refuses its window with a [RangeError] exactly
    when the start is negative or beyond the length, or the end is
    negative. An end beyond the length is searched, not refused. *)
Theorem binarySearch_range_error collection seeked comparator fuel start end_ :
  (exists msg,
      binarySearch collection seeked comparator fuel start end_
      = Thrown (mkError RangeError msg)) <->
  (num_lt start (Fin 0) = true \/
   num_lt (array_length collection) start = true \/
   exists e, end_ = Some e /\ num_lt e (Fin 0) = true).
Proof.
  unfold binarySearch.
  destruct (num_lt start (Fin 0)) eqn:Hneg; cbn [orb].
  { split; [auto|]. intros _. eexists. reflexivity. }
  destruct (num_lt (array_length collection) start) eqn:Hbeyond.
  { split; [auto|]. intros _. eexists. reflexivity. }
  assert (forall e, num_lt (ToNumber VUndefined) e = false) as Hundefined
    by reflexivity.
  rewrite Hundefined, orb_false_r.
  destruct end_ as [e|].
  - destruct (num_lt e (Fin 0)) eqn:Hend.
    { split; [eauto|]. intros _. eexists. reflexivity. }
    split.
    + intros [msg Hthrown]. exfalso.
      destruct (search_loop _ _ _ _ _ _ _ _) as [[[s' e'] cmp]|err|] eqn:Hloop;
        cbn [bind] in Hthrown; try discriminate.
      apply search_loop_thrown in Hloop. subst err. discriminate.
    + intros [|[|[e0 [[= <-] He0]]]]; congruence.
  - assert (num_lt (array_length collection) (Fin 0) = false) as ->.
    { unfold array_length, num_lt. apply Z.ltb_ge, Nat2Z.is_nonneg. }
    split.
    + intros [msg Hthrown]. exfalso.
      destruct (search_loop _ _ _ _ _ _ _ _) as [[[s' e'] cmp]|err|] eqn:Hloop;
        cbn [bind] in Hthrown; try discriminate.
      apply search_loop_thrown in Hloop. subst err. discriminate.
    + intros [|[|[e0 [? _]]]]; congruence.
Qed.

(** X16. On an empty window (the end not behind the start) nothing is
    compared and the search returns the midpoint of start and end, a
    non-negative index, as if the value had been found there. *)
Theorem binarySearch_empty_window collection seeked comparator fuel
    (start end_ : Z) :
  0 <= end_ <= start ->
  start <= Z.of_nat (length collection) ->
  binarySearch collection seeked comparator fuel (Fin start) (Some (Fin end_))
  = Returned (Fin ((start + end_) / 2)).
Proof.
  intros Hend Hstart. unfold binarySearch, array_length.
  cbn [num_lt ToNumber num_add floor_half].
  assert ((start <? 0) = false) as -> by lia.
  assert ((Z.of_nat (length collection) <? start) = false) as ->
    by (apply Z.ltb_ge; exact Hstart).
  assert ((end_ <? 0) = false) as -> by lia.
  cbn [orb]. rewrite search_loop_exit; [reflexivity|].
  cbn [num_lt]. assert ((start <? end_) = false) as -> by lia. reflexivity.
Qed.

(** What the search over the whole of a non-empty array can give. *)
Lemma binarySearch_whole_cases g rest seeked comparator fuel :
  let r := binarySearch (g :: rest) seeked comparator fuel (Fin 0)
             (Some (array_length (g :: rest))) in
  r = OutOfFuel \/
  r = Thrown (mkError TypeError "Incompatible seeked value") \/
  r = Returned (Fin (-1)) \/
  r = Returned (Fin (-1 - (Z.of_nat (length (g :: rest)) / 2 + 1))).
Proof.
  cbv zeta.
  destruct fuel as [|fuel].
  { left. rewrite binarySearch_whole_unfold. cbn [search_loop].
    rewrite whole_window_nonempty. reflexivity. }
  destruct (comparator seeked (collection_at (g :: rest) (middle (g :: rest))))
    as [c|] eqn:Hprobe.
  - destruct (Z.lt_trichotomy c 0) as [Hc|[->|Hc]].
    + right. right. left. apply (binarySearch_whole_less _ _ _ _ c); assumption.
    + left. apply binarySearch_whole_equal. assumption.
    + right. right. right.
      rewrite (binarySearch_whole_greater _ _ _ _ c) by assumption.
      reflexivity.
  - right. left. rewrite binarySearch_whole_unfold.
    rewrite search_loop_incomparable by auto using whole_window_nonempty.
    reflexivity.
Qed.

(** X17. Over the whole of a non-empty array the search returns one of
    two values only, whatever is seeked: -1, or -1 minus the index after
    the middle element. It never returns the index of an element. *)
Theorem binarySearch_whole_results g rest seeked comparator fuel v :
  binarySearch (g :: rest) seeked comparator fuel (Fin 0)
    (Some (array_length (g :: rest))) = Returned v ->
  v = Fin (-1) \/
  v = Fin (-1 - (Z.of_nat (length (g :: rest)) / 2 + 1)).
Proof.
  intros Hreturned.
  destruct (binarySearch_whole_cases g rest seeked comparator fuel)
    as [H|[H|[H|H]]]; rewrite H in Hreturned; try discriminate;
    injection Hreturned as <-; auto.
Qed.

(** ** The actions on any catalog *)

Lemma splice_insert {A : Type} (l : list A) (k : Z) (x : A) :
  0 <= k <= Z.of_nat (length l) ->
  snd (splice l (Fin k) 0 [x])
  = take (Z.to_nat k) l ++ x :: drop (Z.to_nat k) l.
Proof.
  intros Hk. unfold splice, relative_start. cbn [snd].
  assert ((k <? 0) = false) as -> by lia.
  rewrite Z.min_l by lia.
  rewrite (Z.min_l (Z.max 0 0)) by lia.
  cbn [Z.max Z.compare]. rewrite Z.add_0_r. reflexivity.
Qed.

Lemma splice_remove {A : Type} (before after : list A) (x : A) :
  splice (before ++ x :: after) (Fin (Z.of_nat (length before))) 1 []
  = ([x], before ++ after).
Proof.
  unfold splice, relative_start.
  assert ((Z.of_nat (length before) <? 0) = false) as ->
    by (apply Z.ltb_ge, Nat2Z.is_nonneg).
  rewrite length_app, length_cons.
  set (n := length before).
  replace (Z.min (Z.of_nat n) (Z.of_nat (n + S (length after))))
    with (Z.of_nat n) by lia.
  replace (Z.min (Z.max 1 0) (Z.of_nat (n + S (length after)) - Z.of_nat n))
    with 1 by lia.
  replace (Z.to_nat (Z.of_nat n + 1)) with (n + 1)%nat by lia.
  rewrite Nat2Z.id. change (Z.to_nat 1) with 1%nat.
  rewrite <- drop_drop. subst n.
  rewrite drop_app_length, take_app_length. reflexivity.
Qed.

Lemma findIndex_from_first {A : Type} (p : A -> bool) before x after i :
  Forall (fun y => p y = false) before ->
  p x = true ->
  findIndex_from p (before ++ x :: after) i = i + Z.of_nat (length before).
Proof.
  intros Hbefore Hx. revert i.
  induction Hbefore as [|y before Hy _ IH]; intros i; cbn [app findIndex_from].
  - rewrite Hx. cbn [length]. lia.
  - rewrite Hy, IH, length_cons. lia.
Qed.

Lemma findIndex_from_absent {A : Type} (p : A -> bool) l i :
  Forall (fun y => p y = false) l ->
  findIndex_from p l i = -1.
Proof.
  intros Hl. revert i.
  induction Hl as [|y l Hy _ IH]; intros i; cbn [findIndex_from].
  - reflexivity.
  - rewrite Hy. apply IH.
Qed.

(** Where a call that resolves has put the guideline. *)
Lemma addGuideline_resolved fuel catalog guideline catalog' key :
  addGuideline fuel catalog guideline = Returned (catalog', Resolved key) ->
  key = key_of guideline /\
  exists k : nat,
    (k = 0%nat \/ k = Z.to_nat (Z.of_nat (length catalog) / 2 + 1)) /\
    catalog' = take k catalog ++ guideline :: drop k catalog.
Proof.
  destruct catalog as [|g rest].
  { rewrite addGuideline_empty. discriminate. }
  unfold addGuideline.
  destruct (binarySearch_whole_cases g rest (RObj guideline)
              compareGuidelineKeys fuel) as [H|[H|[H|H]]];
    rewrite H; try discriminate.
  - cbn [num_nonneg Z.leb Z.compare num_sub]. intros [= <- <-].
    split; [reflexivity|]. exists 0%nat. split; [auto|].
    apply (splice_insert (g :: rest) 0 guideline). lia.
  - set (m := Z.of_nat (length (g :: rest)) / 2).
    assert (0 <= m) as Hm0 by (apply Z.div_pos; lia).
    assert (m + 1 <= Z.of_nat (length (g :: rest))) as Hm1.
    { subst m. rewrite length_cons.
      generalize (length rest). intros n.
      assert (Z.of_nat (S n) / 2 < Z.of_nat (S n))
        by (apply Z.div_lt; lia).
      lia. }
    cbn [num_nonneg num_sub].
    assert ((0 <=? -1 - (m + 1)) = false) as -> by lia.
    replace (-1 - (-1 - (m + 1))) with (m + 1) by lia.
    rewrite (splice_insert (g :: rest) (m + 1)) by lia.
    intros [= <- <-]. split; [reflexivity|].
    exists (Z.to_nat (m + 1)). split; [auto|reflexivity].
Qed.

(** X18. A call of [addGuideline] that resolves answers with the key of
    the guideline and has put the guideline either in front of the
    catalog or right behind its middle entry; every other entry keeps
    its place in the order. *)
Theorem addGuideline_inserts_front_or_middle
    fuel catalog guideline catalog' key :
  addGuideline fuel catalog guideline = Returned (catalog', Resolved key) ->
  key = key_of guideline /\
  (catalog' = guideline :: catalog \/
   let k := Z.to_nat (Z.of_nat (length catalog) / 2 + 1) in
   catalog' = take k catalog ++ guideline :: drop k catalog).
Proof.
  intros Hadd. apply addGuideline_resolved in Hadd as [Hkey [k [[->| ->] ->]]];
    split; auto.
Qed.

(** X19. A call of [addGuideline] that rejects, for whatever reason,
    leaves the catalog as it was. *)
Theorem addGuideline_rejects_without_change
    fuel catalog guideline catalog' e :
  addGuideline fuel catalog guideline = Returned (catalog', Rejected e) ->
  catalog' = catalog.
Proof.
  unfold addGuideline.
  destruct (binarySearch _ _ _ _ _ _) as [index| |]; [|congruence|discriminate].
  destruct (num_nonneg index); congruence.
Qed.


(** X21. [updateGuideline] never replaces an entry: whenever the call
    settles, its promise is rejected and the catalog is as it was. *)
Theorem updateGuideline_never_replaces
    fuel catalog guidelineKey guideline catalog' p :
  updateGuideline fuel catalog guidelineKey guideline = Returned (catalog', p) ->
  catalog' = catalog /\ exists e, p = Rejected e.
Proof.
  destruct catalog as [|g rest].
  { rewrite updateGuideline_empty. intros [= <- <-]. eauto. }
  unfold updateGuideline. rewrite binarySearch_open_end_unfold.
  destruct fuel as [|fuel].
  - cbn [search_loop]. rewrite whole_window_nonempty. discriminate.
  - rewrite search_loop_incomparable by auto using whole_window_nonempty.
    intros [= <- <-]. eauto.
Qed.

(** ** Removing from the catalog *)

Lemma removeGuideline_by_name_first fuel before g after s :
  Forall (fun x => js_strict_eq (name x) (VStr s) = false) before ->
  js_strict_eq (name g) (VStr s) = true ->
  removeGuideline fuel (before ++ g :: after) (KString s)
  = Returned (before ++ after, Resolved (RObj g)).
Proof.
  intros Hbefore Hg. unfold removeGuideline, findIndex.
  rewrite (findIndex_from_first _ before g after 0 Hbefore Hg).
  unfold remove_at, num_nonneg. rewrite Z.add_0_l.
  assert ((0 <=? Z.of_nat (length before)) = true) as ->
    by (apply Z.leb_le, Nat2Z.is_nonneg).
  rewrite splice_remove. reflexivity.
Qed.

(** X22. Called with a name, [removeGuideline] removes the first entry
    of that name and resolves to it; the entries before and behind it
    stay as they are. *)
Theorem removeGuideline_by_name fuel before g after s :
  Forall (fun x => js_strict_eq (name x) (VStr s) = false) before ->
  js_strict_eq (name g) (VStr s) = true ->
  removeGuideline fuel (before ++ g :: after) (KString s)
  = Returned (before ++ after, Resolved (RObj g)).
Proof. apply removeGuideline_by_name_first. Qed.

(** X23. Called with a name that no entry has, [removeGuideline]
    resolves to [undefined] and leaves the catalog as it was. *)
Theorem removeGuideline_unknown_name fuel catalog s :
  Forall (fun x => js_strict_eq (name x) (VStr s) = false) catalog ->
  removeGuideline fuel catalog (KString s)
  = Returned (catalog, Resolved RUndefined).
Proof.
  intros Hcatalog. unfold removeGuideline, findIndex.
  rewrite findIndex_from_absent by assumption. reflexivity.
Qed.

(** X24. Called with a key object, with [null] or with [undefined],
    [removeGuideline] never removes an entry: whenever the call settles,
    the catalog is as it was, and the promise is resolved to [undefined]
    or rejected with the [TypeError] of the search. *)
Theorem removeGuideline_by_key_removes_nothing fuel catalog r catalog' p :
  removeGuideline fuel catalog (KRef r) = Returned (catalog', p) ->
  catalog' = catalog /\
  (p = Resolved RUndefined \/
   p = Rejected (mkError TypeError "Incompatible seeked value")).
Proof.
  assert (forall q : ref,
             match binarySearch catalog q compareGuidelineKeys fuel (Fin 0)
                     (Some (array_length catalog)) with
             | Returned index => Returned (remove_at catalog index)
             | Thrown e => Returned (catalog, Rejected e)
             | OutOfFuel => OutOfFuel
             end = Returned (catalog', p) ->
             catalog' = catalog /\
             (p = Resolved RUndefined \/
              p = Rejected (mkError TypeError "Incompatible seeked value")))
    as Hsearch.
  { intros q. destruct catalog as [|g rest].
    - change (array_length (@nil Guideline)) with (Fin 0).
      rewrite binarySearch_empty. intros [= <- <-]. auto.
    - destruct (binarySearch_whole_cases g rest q compareGuidelineKeys fuel)
        as [H|[H|[H|H]]]; rewrite H; try discriminate.
      + intros [= <- <-]. auto.
      + intros [= <- <-]. auto.
      + unfold remove_at, num_nonneg.
        assert (0 <= Z.of_nat (length (g :: rest)) / 2)
          by (apply Z.div_pos; lia).
        assert ((0 <=? -1 - (Z.of_nat (length (g :: rest)) / 2 + 1)) = false)
          as -> by lia.
        intros [= <- <-]. auto. }
  destruct r as [| |key]; cbn [removeGuideline].
  - intros [= <- <-]. auto.
  - apply Hsearch.
  - apply Hsearch.
Qed.

(** X25. An entry that [addGuideline] has stored is taken out again by
    [removeGuideline] with its name, if no other entry has that name:
    the call resolves to the entry and the catalog is back to what it
    was before the two calls. *)
Theorem addGuideline_then_removeGuideline
    fuel fuel' catalog guideline s catalog' key :
  addGuideline fuel catalog guideline = Returned (catalog', Resolved key) ->
  name guideline = VStr s ->
  Forall (fun x => js_strict_eq (name x) (VStr s) = false) catalog ->
  removeGuideline fuel' catalog' (KString s)
  = Returned (catalog, Resolved (RObj guideline)).
Proof.
  intros Hadd Hname Hothers.
  apply addGuideline_resolved in Hadd as [_ [k [_ ->]]].
  rewrite removeGuideline_by_name_first.
  - rewrite take_drop. reflexivity.
  - apply Forall_take. exact Hothers.
  - rewrite Hname. unfold js_strict_eq. apply String.eqb_refl.
Qed.

End Runtime.

(** A run of [nullish_operand_incomparable] on [null] and an entry. *)
Lemma nullish_operand_incomparable_witness :
  nullish RNull || nullish (RObj creo_animal) = true /\
  compareGuideline (fun _ => NaN) RNull (RObj creo_animal) = None /\
  compareGuidelineKeys (fun _ => NaN) RNull (RObj creo_animal) = None.
Proof.
  split; [reflexivity|].
  apply (nullish_operand_incomparable (fun _ => NaN) RNull (RObj creo_animal)).
  reflexivity.
Defined.

(** ** The query builder *)

(** The first thing the executor of [getGuidelines] evaluates is the
    identifier [getOwnPropertyNames], which nothing binds. *)
Lemma getGuidelines_queryBuilder_throws (sqlFilter : option JsObject) :
  getGuidelines_queryBuilder sqlFilter
  = Thrown (mkError ReferenceError "getOwnPropertyNames is not defined").
Proof. reflexivity. Qed.

(** [validFieldName] throws on every field name: its body reads [field],
    which nothing binds. *)
Lemma validFieldName_throws (fieldName : string) :
  validFieldName fieldName
  = Thrown (mkError ReferenceError "field is not defined").
Proof. reflexivity. Qed.

(** The pattern asks for a dot after the first name segment: the plain
    column names do not pass it, a qualified name does. *)
Lemma field_pattern_test_examples :
  field_pattern_test "category1" = false /\
  field_pattern_test "level" = false /\
  field_pattern_test "g.form" = true /\
  field_pattern_test "g." = true /\
  field_pattern_test "g.form_" = false.
Proof. repeat split; reflexivity. Qed.

(** C7 (the code departs from the claim). For the filter
    [{category1: "Animal", level: null}] no statement is built: the call
    throws a [ReferenceError] before the first clause, so there are
    neither two clauses nor one bound value. The callback throws on
    either field, and neither name passes the pattern of
    [validFieldName]. *)
Theorem getGuidelines_statement_form_and_null_level :
  let sqlFilter := Some [("category1", VStr "Animal"); ("level", VNull)] in
  getGuidelines_statement sqlFilter
  = Thrown (mkError ReferenceError "getOwnPropertyNames is not defined") /\
  (forall result,
      filter_callback sqlFilter result "category1"
      = Thrown (mkError ReferenceError "field is not defined")) /\
  (forall result,
      filter_callback sqlFilter result "level"
      = Thrown (mkError ReferenceError "field is not defined")) /\
  field_pattern_test "category1" = false /\
  field_pattern_test "level" = false.
Proof.
  intros sqlFilter. split; [reflexivity|].
  split.
  { intros result. unfold filter_callback.
    rewrite validFieldName_throws. reflexivity. }
  split.
  { intros result. unfold filter_callback.
    rewrite validFieldName_throws. reflexivity. }
  split; reflexivity.
Qed.

(** C8 (the code departs from the claim). No filter is ever compiled
    into a statement with placeholders: for every filter the call throws
    before a placeholder is assigned, and the callback that would assign
    one throws for every builder and field name. *)
Theorem getGuidelines_statement_never_built :
  (forall sqlFilter,
      getGuidelines_statement sqlFilter
      = Thrown (mkError ReferenceError "getOwnPropertyNames is not defined")) /\
  (forall sqlFilter result fieldName,
      filter_callback sqlFilter result fieldName
      = Thrown (mkError ReferenceError "field is not defined")).
Proof. split; reflexivity. Qed.

(** C9 (the code departs from the claim). A field name that the pattern
    of [validFieldName] does not accept is not dropped: the filter that
    holds it makes the call throw, and both reduce callbacks throw on it
    instead of returning the builder unchanged. *)
Theorem invalid_field_name_raises :
  field_pattern_test "no such field" = false /\
  getGuidelines_statement
    (Some [("no such field", VNum (Fin 1)); ("g.form", VStr "Animal")])
  = Thrown (mkError ReferenceError "getOwnPropertyNames is not defined") /\
  (forall sqlFilter result,
      filter_callback sqlFilter result "no such field"
      = Thrown (mkError ReferenceError "field is not defined")) /\
  (forall order result,
      order_callback order result "no such field"
      = Thrown (mkError ReferenceError "field is not defined")).
Proof. repeat split; reflexivity. Qed.

(** ** The comparator combinators *)

Lemma switch_done_stays {T : Type} (compared comparee : T) entries result :
  switch_done result = true ->
  fold_left (switch_callback false compared comparee) entries result = result.
Proof.
  intros Hdone. induction entries as [|[predicate compare] entries IH].
  - reflexivity.
  - cbn [fold_left switch_callback]. rewrite Hdone. cbn. exact IH.
Qed.

Lemma switch_first_from {T : Type} (compared comparee : T) entries v :
  switch_value
    (fold_left (switch_callback false compared comparee) entries
       (mkSwitchResult false v))
  = match List.find (fun entry => fst entry compared && fst entry comparee)
            entries with
    | Some entry => snd entry compared comparee
    | None => v
    end.
Proof.
  induction entries as [|[predicate compare] entries IH].
  - reflexivity.
  - cbn [fold_left switch_callback List.find fst snd switch_done negb orb andb].
    destruct (predicate compared && predicate comparee) eqn:Happlies.
    + rewrite switch_done_stays by reflexivity. reflexivity.
    + exact IH.
Qed.

(** X7. Without [ignoreEquality], [switchCompare] answers with the
    comparison of the first entry whose predicate accepts both operands,
    and with 0 when no entry accepts them. *)
Theorem switchCompare_first_applicable {T : Type}
    (predicateMapEntries : list ((T -> bool) * (T -> T -> ComparisonResult)))
    (compared comparee : T) :
  switchCompare predicateMapEntries false compared comparee
  = match List.find (fun entry => fst entry compared && fst entry comparee)
            predicateMapEntries with
    | Some entry => snd entry compared comparee
    | None => Some 0
    end.
Proof. unfold switchCompare. apply switch_first_from. Qed.

Lemma switch_decided_stays {T : Type} (compared comparee : T) entries v :
  is_zero v = false ->
  fold_left (switch_callback true compared comparee) entries
    (mkSwitchResult true v)
  = mkSwitchResult true v.
Proof.
  intros Hv. induction entries as [|[predicate compare] entries IH].
  - reflexivity.
  - cbn [fold_left switch_callback switch_value switch_done].
    rewrite Hv. cbn. exact IH.
Qed.

Lemma is_zero_Some_0 (r : ComparisonResult) : is_zero r = true -> r = Some 0.
Proof. destruct r as [[| |]|]; try discriminate. reflexivity. Qed.

Lemma switch_chain_from {T : Type} (compared comparee : T) entries done :
  switch_value
    (fold_left (switch_callback true compared comparee) entries
       (mkSwitchResult done (Some 0)))
  = match List.find
            (fun entry => fst entry compared && fst entry comparee
                          && negb (is_zero (snd entry compared comparee)))
            entries with
    | Some entry => snd entry compared comparee
    | None => Some 0
    end.
Proof.
  revert done. induction entries as [|[predicate compare] entries IH]; intros done.
  - reflexivity.
  - cbn [fold_left switch_callback List.find fst snd switch_value is_zero
         andb orb].
    destruct (predicate compared && predicate comparee) eqn:Happlies;
      cbn [andb]; [|apply IH].
    destruct (is_zero (compare compared comparee)) eqn:Hzero; cbn [negb].
    + rewrite (is_zero_Some_0 _ Hzero). apply IH.
    + rewrite switch_decided_stays by assumption. reflexivity.
Qed.

(** X8. With [ignoreEquality], [switchCompare] goes on past entries
    that answer 0: the answer is that of the first entry whose predicate
    accepts both operands and whose comparison is not 0 (be it an order
    or [undefined]), and 0 when there is no such entry. *)
Theorem switchCompare_first_unequal {T : Type}
    (predicateMapEntries : list ((T -> bool) * (T -> T -> ComparisonResult)))
    (compared comparee : T) :
  switchCompare predicateMapEntries true compared comparee
  = match List.find
            (fun entry => fst entry compared && fst entry comparee
                          && negb (is_zero (snd entry compared comparee)))
            predicateMapEntries with
    | Some entry => snd entry compared comparee
    | None => Some 0
    end.
Proof. unfold switchCompare. apply switch_chain_from. Qed.

(** ** The guideline group *)

Lemma findIndex_from_none {A : Type} (array : list A) (i : Z) :
  findIndex_from (fun _ : A => false) array i = -1.
Proof.
  revert i. induction array as [|x rest IH]; intros i; [reflexivity|].
  cbn [findIndex_from]. apply IH.
Qed.

Lemma validMember_instance (members : list Member) (m : Member) (index : Z) :
  validMember members (AMember m) index = true.
Proof. unfold validMember, findIndex. rewrite findIndex_from_none. reflexivity. Qed.

(** X9. [addMember] never adds: for an instance of one of the two
    classes it throws the [RangeError] meant for a name that is taken,
    whatever the members are, and for anything else the [TypeError]. *)
Theorem addMember_always_throws (members : list Member) (member : argument) :
  addMember members member
  = Thrown (match member with
            | AMember _ => mkError RangeError "Member name already used"
            | _ => mkError TypeError "Invalid member"
            end).
Proof.
  destruct member as [m|s|]; cbn [addMember]; [|reflexivity|reflexivity].
  rewrite validMember_instance. reflexivity.
Qed.

(** X10. A group can only be constructed without initial members: with
    an empty list the constructor gives a group without members, and
    with any other list it throws the error of [addMember] for the first
    element. *)
Theorem GuidelineGroupModel_initial_members (group_name : value)
    (members : list argument) :
  GuidelineGroupModel group_name members
  = match members with
    | [] => Returned (group_name, [])
    | AMember _ :: _ =>
        Thrown (mkError RangeError "Member name already used")
    | _ :: _ => Thrown (mkError TypeError "Invalid member")
    end.
Proof.
  destruct members as [|first rest]; [reflexivity|].
  unfold GuidelineGroupModel. cbn [reduce].
  destruct first as [m|s|]; reflexivity.
Qed.

Lemma members_after_empty (call : group_call) : members_after [] call = [].
Proof.
  destruct call as [member|memberRef|memberRef newMember].
  - cbn [members_after]. destruct member as [m|s|]; reflexivity.
  - unfold members_after, removeMember.
    destruct (reference_name memberRef); reflexivity.
  - unfold members_after, updateMember.
    destruct (reference_name memberRef); [|reflexivity].
    destruct newMember as [m|s|]; reflexivity.
Qed.

(** X11. The members of a group stay empty: starting from the group the
    constructor gives, no sequence of [addMember], [removeMember] and
    [updateMember] calls leaves it with a member. *)
Theorem group_members_stay_empty (calls : list group_call) :
  fold_left members_after calls [] = [].
Proof.
  induction calls as [|call calls IH]; [reflexivity|].
  cbn [fold_left]. rewrite members_after_empty. exact IH.
Qed.

(** ** The level column *)


(** ** The pattern of field names *)

Lemma split_at_dot_spec (s before after : string) :
  split_at_dot s = Some (before, after) ->
  s = (before ++ String "." after)%string.
Proof.
  revert before after.
  induction s as [|c s IH]; intros before after; [discriminate|].
  cbn [split_at_dot]. destruct (Ascii.eqb c ".") eqn:Hdot.
  - apply Ascii.eqb_eq in Hdot. intros [= <- <-]. subst c. reflexivity.
  - destruct (split_at_dot s) as [[b a]|]; [|discriminate].
    intros [= <- <-].
    change (String c s = String c (b ++ String "." a)%string).
    f_equal. apply IH. reflexivity.
Qed.

(** X13. Every string the pattern of [validFieldName] accepts holds a
    dot: it is a name segment, a dot, and then nothing or a second name
    segment. A plain column name does not pass. *)
Theorem field_pattern_needs_dot (s : string) :
  field_pattern_test s = true ->
  exists before after : string,
    s = (before ++ String "." after)%string /\
    name_segment before = true /\
    (after = EmptyString \/ name_segment after = true).
Proof.
  unfold field_pattern_test.
  destruct (split_at_dot s) as [[before after]|] eqn:Hsplit; [|discriminate].
  intros Htest. apply andb_prop in Htest as [Hbefore Hafter].
  exists before, after. split; [apply split_at_dot_spec; exact Hsplit|].
  split; [exact Hbefore|].
  apply orb_prop in Hafter as [Hempty|Hsegment]; [left|right; exact Hsegment].
  apply String.eqb_eq. exact Hempty.
Qed.

(** ** Runs of the statements above on entries of the catalog *)

Lemma compareGuidelineKeys_complete_keys_witness :
  key_complete creo_animal = true /\
  key_complete perdo_vim = true /\
  compareGuidelineKeys (fun _ => NaN) (RObj creo_animal) (RObj perdo_vim)
  = compareGuideline (fun _ => NaN) (RObj creo_animal) (RObj perdo_vim).
Proof.
  split; [reflexivity|]. split; [reflexivity|].
  apply (compareGuidelineKeys_complete_keys (fun _ => NaN)
           creo_animal perdo_vim); reflexivity.
Defined.

Lemma compareGuidelineKeys_form_only_witness :
  technique animal_key = VUndefined /\
  level animal_key = VUndefined /\
  name animal_key = VUndefined /\
  compareGuidelineKeys (fun _ => NaN) (RObj animal_key) (RObj creo_animal)
  = compareIgnoreUndefined (artComparison (fun _ => NaN))
      (form animal_key) (form creo_animal) /\
  compareGuidelineKeys (fun _ => NaN) (RObj creo_animal) (RObj animal_key)
  = compareIgnoreUndefined (artComparison (fun _ => NaN))
      (form creo_animal) (form animal_key).
Proof.
  split; [reflexivity|]. split; [reflexivity|]. split; [reflexivity|].
  apply (compareGuidelineKeys_form_only (fun _ => NaN)
           animal_key creo_animal); reflexivity.
Defined.

Lemma compareGuideline_reflexive_witness :
  well_formed creo_animal = true /\
  compareGuideline (fun _ => NaN) (RObj creo_animal) (RObj creo_animal)
  = Some 0 /\
  compareGuidelineKeys (fun _ => NaN) (RObj creo_animal) (RObj creo_animal)
  = Some 0.
Proof.
  split; [reflexivity|].
  apply (compareGuideline_reflexive (fun _ => NaN) creo_animal). reflexivity.
Defined.

Lemma compareGuideline_ascending_levels_witness :
  2 <= 5 /\
  compareGuideline (fun _ => NaN)
    (RObj preserve_corpse) (RObj cure_minor_disease)
  = compareName (fun _ => NaN)
      (name preserve_corpse) (name cure_minor_disease).
Proof.
  split; [lia|].
  apply (compareGuideline_ascending_levels (fun _ => NaN)
           preserve_corpse cure_minor_disease "Animal" "Creo" 2 5);
    try reflexivity.
  lia.
Defined.

Lemma field_pattern_needs_dot_witness :
  field_pattern_test "g.form" = true /\
  exists before after : string,
    "g.form" = (before ++ String "." after)%string /\
    name_segment before = true /\
    (after = EmptyString \/ name_segment after = true).
Proof.
  split; [reflexivity|].
  apply (field_pattern_needs_dot "g.form"). reflexivity.
Defined.

Lemma binarySearch_empty_window_witness :
  0 <= 1 <= 2 /\
  2 <= Z.of_nat (length guidelines) /\
  binarySearch (fun _ => NaN) guidelines (RObj creo_corpus)
    (compareGuidelineKeys (fun _ => NaN)) 0 (Fin 2) (Some (Fin 1))
  = Returned (Fin ((2 + 1) / 2)).
Proof.
  split; [lia|]. split; [cbn; lia|].
  apply (binarySearch_empty_window (fun _ => NaN) guidelines
           (RObj creo_corpus) (compareGuidelineKeys (fun _ => NaN)) 0 2 1).
  - lia.
  - cbn. lia.
Defined.

Lemma binarySearch_whole_results_witness :
  binarySearch (fun _ => NaN) (creo_animal :: [perdo_vim]) (RObj creo_corpus)
    (compareGuidelineKeys (fun _ => NaN)) 1 (Fin 0)
    (Some (array_length (creo_animal :: [perdo_vim])))
  = Returned (Fin (-1)) /\
  (Fin (-1) = Fin (-1) \/
   Fin (-1)
   = Fin (-1 - (Z.of_nat (length (creo_animal :: [perdo_vim])) / 2 + 1))).
Proof.
  split; [reflexivity|].
  apply (binarySearch_whole_results (fun _ => NaN) creo_animal [perdo_vim]
           (RObj creo_corpus) (compareGuidelineKeys (fun _ => NaN)) 1).
  reflexivity.
Defined.

Lemma addGuideline_inserts_front_or_middle_witness :
  addGuideline (fun _ => NaN) 1 guidelines creo_corpus
  = Returned (creo_corpus :: guidelines, Resolved (key_of creo_corpus)) /\
  key_of creo_corpus = key_of creo_corpus /\
  (creo_corpus :: guidelines = creo_corpus :: guidelines \/
   let k := Z.to_nat (Z.of_nat (length guidelines) / 2 + 1) in
   creo_corpus :: guidelines
   = take k guidelines ++ creo_corpus :: drop k guidelines).
Proof.
  split; [reflexivity|].
  apply (addGuideline_inserts_front_or_middle (fun _ => NaN) 1 guidelines
           creo_corpus). reflexivity.
Defined.

Lemma addGuideline_rejects_without_change_witness :
  addGuideline (fun _ => NaN) 1 [] creo_corpus
  = Returned ([], Rejected (mkError RangeError "The guideline already exists"))
  /\ @nil Guideline = [].
Proof.
  split; [reflexivity|].
  apply (addGuideline_rejects_without_change (fun _ => NaN) 1 [] creo_corpus []
           (mkError RangeError "The guideline already exists")).
  reflexivity.
Defined.

Lemma updateGuideline_never_replaces_witness :
  updateGuideline (fun _ => NaN) 1 guidelines (RObj creo_animal) creo_animal
  = Returned (guidelines,
              Rejected (mkError TypeError "Incompatible seeked value")) /\
  guidelines = guidelines /\
  exists e, Rejected (mkError TypeError "Incompatible seeked value")
            = @Rejected ref e.
Proof.
  split; [reflexivity|].
  apply (updateGuideline_never_replaces (fun _ => NaN) 1 guidelines
           (RObj creo_animal) creo_animal). reflexivity.
Defined.

Lemma removeGuideline_by_name_witness :
  Forall (fun x => js_strict_eq (name x)
                     (VStr "Destroy a specific kind of magical effect.")
                   = false) [creo_animal] /\
  js_strict_eq (name perdo_vim)
    (VStr "Destroy a specific kind of magical effect.") = true /\
  removeGuideline (fun _ => NaN) 0 ([creo_animal] ++ perdo_vim :: [])
    (KString "Destroy a specific kind of magical effect.")
  = Returned ([creo_animal] ++ [], Resolved (RObj perdo_vim)).
Proof.
  assert (Forall (fun x => js_strict_eq (name x)
                     (VStr "Destroy a specific kind of magical effect.")
                   = false) [creo_animal]) as Hbefore
    by (repeat constructor).
  split; [exact Hbefore|]. split; [reflexivity|].
  apply (removeGuideline_by_name (fun _ => NaN) 0 [creo_animal] perdo_vim []
           "Destroy a specific kind of magical effect." Hbefore).
  reflexivity.
Defined.

Lemma removeGuideline_unknown_name_witness :
  Forall (fun x => js_strict_eq (name x) (VStr "Heal a Light Wound.") = false)
    guidelines /\
  removeGuideline (fun _ => NaN) 0 guidelines (KString "Heal a Light Wound.")
  = Returned (guidelines, Resolved RUndefined).
Proof.
  assert (Forall (fun x => js_strict_eq (name x) (VStr "Heal a Light Wound.")
                           = false) guidelines) as Hcatalog
    by (repeat constructor).
  split; [exact Hcatalog|].
  apply (removeGuideline_unknown_name (fun _ => NaN) 0 guidelines
           "Heal a Light Wound." Hcatalog).
Defined.

Lemma removeGuideline_by_key_removes_nothing_witness :
  removeGuideline (fun _ => NaN) 1 guidelines (KRef (RObj creo_animal))
  = Returned (guidelines, Resolved RUndefined) /\
  guidelines = guidelines /\
  (Resolved RUndefined = @Resolved ref RUndefined \/
   Resolved RUndefined
   = Rejected (mkError TypeError "Incompatible seeked value")).
Proof.
  split; [reflexivity|].
  apply (removeGuideline_by_key_removes_nothing (fun _ => NaN) 1 guidelines
           (RObj creo_animal)). reflexivity.
Defined.

Lemma addGuideline_then_removeGuideline_witness :
  addGuideline (fun _ => NaN) 1 guidelines creo_corpus
  = Returned (creo_corpus :: guidelines, Resolved (key_of creo_corpus)) /\
  name creo_corpus = VStr "Heal a Light Wound." /\
  Forall (fun x => js_strict_eq (name x) (VStr "Heal a Light Wound.") = false)
    guidelines /\
  removeGuideline (fun _ => NaN) 0 (creo_corpus :: guidelines)
    (KString "Heal a Light Wound.")
  = Returned (guidelines, Resolved (RObj creo_corpus)).
Proof.
  assert (Forall (fun x => js_strict_eq (name x) (VStr "Heal a Light Wound.")
                           = false) guidelines) as Hothers
    by (repeat constructor).
  split; [reflexivity|]. split; [reflexivity|]. split; [exact Hothers|].
  apply (addGuideline_then_removeGuideline (fun _ => NaN) 1 0 guidelines
           creo_corpus "Heal a Light Wound." (creo_corpus :: guidelines)
           (key_of creo_corpus)); [reflexivity|reflexivity|exact Hothers].
Defined.
